(** * phosphor-fan-presence, control/json: the action factory and the fan entity

    A shallow embedding of [control/json/actions/action.hpp] (the classes
    [ActionBase], [ActionFactory], [ActionRegister] and the function template
    [createAction]) and of [control/json/fan.hpp] (the class [Fan]), followed
    by the properties of the registry, of name resolution and of the fan
    entity.

    Conventions of the embedding:
    - [std::string] is [string]; its [operator<] is the byte-wise
      lexicographic order, which is [String.compare] / [String_as_OT.lt];
    - [std::map<std::string, V>] is the Standard Library's sorted
      association list keyed by [String_as_OT]: lookup by key, one entry per
      key, iteration in increasing key order;
    - [std::unique_ptr<X>] is [option X], [None] being [nullptr];
    - a function that logs, writes the registry or throws is a function from
      the process state to an [Outcome]: a normal return, a thrown exception
      (both with the state reached), or undefined behaviour. *)

From Stdlib Require Import String Ascii List Bool Arith Lia.
From Stdlib Require Import OrderedTypeEx FMapList FMapFacts Sorted SetoidList.
From Stdlib Require Import Permutation.
Import ListNotations.
Local Open Scope string_scope.
Local Set Warnings "-register-all".

(** ** [std::map<std::string, _>] *)

Module StdMap := FMapList.Make String_as_OT.
Module StdMapFacts := FMapFacts.Facts StdMap.
Module StdMapProps := FMapFacts.Properties StdMap.
Module StdMapOrd := FMapFacts.OrdProperties StdMap.

(** The keys of a map in iteration order, [begin()] to [end()]. *)
Definition keys {V : Type} (m : StdMap.t V) : list string :=
  map fst (StdMap.elements m).

(** ** [nlohmann::json] values *)

Inductive json : Type :=
| Jnull
| Jbool (b : bool)
| Jnumber (n : nat)
| Jstring (s : string)
| Jarray (items : list json)
| Jobject (fields : list (string * json)).

(** ** Strings handed to C interfaces and to the formatting library *)

Module Str.

(** [s.c_str()] read as a C string: the bytes before the first NUL. *)
Fixpoint c_str (s : string) : string :=
  match s with
  | EmptyString => EmptyString
  | String c rest =>
      if Ascii.eqb c Ascii.zero then EmptyString else String c (c_str rest)
  end.

(** [fmt::format(f, arg)] for a format with one [{}] replacement field. *)
Fixpoint format (f arg : string) : string :=
  match f with
  | String "{" (String "}" rest) => arg ++ rest
  | String c rest => String c (format rest arg)
  | EmptyString => EmptyString
  end.

(** printf-style formatting of a format with one [%s] conversion. *)
Fixpoint sprintf (f arg : string) : string :=
  match f with
  | String "%" (String "s" rest) => arg ++ rest
  | String c rest => String c (sprintf rest arg)
  | EmptyString => EmptyString
  end.

(** No byte of [s] is NUL: [s.c_str()] then reads as the whole of [s]. *)
Fixpoint nul_free (s : string) : bool :=
  match s with
  | EmptyString => true
  | String c rest => negb (Ascii.eqb c Ascii.zero) && nul_free rest
  end.

(** [n] occurs in [s] as a substring. *)
Definition occurs (n s : string) : Prop :=
  exists pre post, s = pre ++ n ++ post.

End Str.

(** ** [std::accumulate] and iterators over a container

    An iterator is the range that remains in front of it; [end()] is the
    empty range.  Advancing or dereferencing [end()] has no defined
    behaviour, which the partial results below make explicit. *)

Module Iter.

Definition next {A : Type} (it : list A) : option (list A) :=
  match it with
  | [] => None
  | _ :: rest => Some rest
  end.

Definition deref {A : Type} (it : list A) : option A :=
  match it with
  | [] => None
  | x :: _ => Some x
  end.

Fixpoint accumulate {A B : Type} (first : list A) (init : B)
    (op : B -> A -> B) : B :=
  match first with
  | [] => init
  | x :: rest => accumulate rest (op init x) op
  end.

End Iter.

(** ** Exceptions and [std::unique_ptr] *)

Inductive exception : Type :=
| runtime_error (what : string)
| other_exception (what : string).

Definition unique_ptr (X : Type) : Type := option X.
Definition nullptr {X : Type} : unique_ptr X := None.

(** ** phosphor-logging: the journal *)

Inductive level : Type := ERR | INFO.

Record LogRecord : Type := mkLog {
  log_level : level;
  log_msg : string;
  log_entries : list string
}.

(** [entry("KEY=%s", value)] is one formatted metadata field. *)
Definition entry (f arg : string) : string := Str.sprintf f arg.

(** The record that [regAction] logs on a collision, and the one that
    [getAction] logs for an unknown name, [acts] being the list of available
    actions it built. *)
Definition collision_record (name : string) : LogRecord :=
  mkLog ERR (Str.c_str ("Action '" ++ name ++ "' is already registered")) [].

Definition unknown_record (name acts : string) : LogRecord :=
  mkLog ERR (Str.c_str ("Action '" ++ name ++ "' is not registered"))
    ["AVAILABLE_ACTIONS=" ++ Str.c_str acts].

(** ** [ActionBase] and the classes derived from it *)

Module ActionBase.
Section WithAction.

(** [Action] of [types.hpp]: the invocable effect of an action. *)
Context {Action : Type}.

(** The base subobject: [const std::string _name]. *)
Record t : Type := ctor { _name : string }.

Definition getName (this : t) : string := _name this.

(** What [createAction<T>], [regAction<T>] and [ActionRegister<T>] ask of
    a class [T]: it derives from [ActionBase], has a static member
    [T::name], is constructible from [const json&], and overrides the pure
    virtual [getAction()].  The constructor either throws or yields the
    name it hands to [ActionBase(name)] together with the data members of
    [T]; the override is not [const], so it may update those members, but
    [_name] is private to the base and reaches it only through
    [getName()]. *)
Record Class : Type := mkClass {
  name : string;
  Members : Type;
  construct : json -> exception + (string * Members);
  getAction_override : string -> Members -> Action * Members
}.

(** A complete object: the base subobject, its dynamic type, and the data
    members of that type. *)
Record Object : Type := mkObject {
  dyn : Class;
  base : t;
  members : Members dyn
}.

Definition Object_getName (this : Object) : string := getName (base this).

(** [virtual const Action getAction() = 0], dispatched on the dynamic
    type. *)
Definition getAction (this : Object) : Action * Object :=
  let (a, m') :=
    getAction_override (dyn this) (getName (base this)) (members this) in
  (a, mkObject (dyn this) (base this) m').

(** The calls a holder of an action can make over its lifetime. *)
Inductive Call : Type := CallGetName | CallGetAction.

Definition call (c : Call) (this : Object) : Object :=
  match c with
  | CallGetName => this
  | CallGetAction => snd (getAction this)
  end.

Definition lifetime (cs : list Call) (this : Object) : Object :=
  fold_left (fun o c => call c o) cs this.

End WithAction.
Arguments t : clear implicits.
Arguments Class : clear implicits.
Arguments Object : clear implicits.
End ActionBase.

(** ** [ActionFactory]: the registry of actions and name resolution *)

Module ActionFactory.
Section WithAction.

Context {Action : Type}.

Local Abbreviation Class := (ActionBase.Class Action).
Local Abbreviation Object := (ActionBase.Object Action).

(** [std::function<std::unique_ptr<ActionBase>(const json&)>]: a call
    either throws or returns the pointer. *)
Definition Creator : Type := json -> exception + unique_ptr Object.

(** [std::make_unique<T>(jsonObj)]: runs [T]'s constructor, which runs
    [ActionBase(name)] first; the result is never [nullptr]. *)
Definition make_unique (T : Class) (jsonObj : json)
  : exception + unique_ptr Object :=
  match ActionBase.construct T jsonObj with
  | inl e => inl e
  | inr (n, m) => inr (Some (ActionBase.mkObject T (ActionBase.ctor n) m))
  end.

Definition createAction (T : Class) : Creator :=
  fun jsonObj => make_unique T jsonObj.

(** The state the factory reads and writes: its static member [actions] and
    the journal that [log<level::ERR>] appends to. *)
Record Process : Type := mkProcess {
  actions : StdMap.t Creator;
  journal : list LogRecord
}.

Inductive Outcome (A : Type) : Type :=
| Return (a : A) (p : Process)
| Throw (e : exception) (p : Process)
| Undefined.
Arguments Return {A} a p.
Arguments Throw {A} e p.
Arguments Undefined {A}.

Definition M (A : Type) : Type := Process -> Outcome A.

Definition ret {A : Type} (a : A) : M A := fun p => Return a p.

Definition bind {A B : Type} (c : M A) (k : A -> M B) : M B :=
  fun p =>
    match c p with
    | Return a p' => k a p'
    | Throw e p' => Throw e p'
    | Undefined => Undefined
    end.

Definition throw {A : Type} (e : exception) : M A := fun p => Throw e p.

Definition read_actions : M (StdMap.t Creator) :=
  fun p => Return (actions p) p.

Definition write_actions (m : StdMap.t Creator) : M unit :=
  fun p => Return tt (mkProcess m (journal p)).

Definition log (l : level) (msg : string) (entries : list string) : M unit :=
  fun p =>
    Return tt (mkProcess (actions p) (journal p ++ [mkLog l msg entries])).

(** An iterator operation: defined, or undefined behaviour. *)
Definition defined {A : Type} (x : option A) : M A :=
  fun p =>
    match x with
    | Some a => Return a p
    | None => Undefined
    end.

(** A call through a stored [std::function]: its exception propagates. *)
Definition invoke {A : Type} (r : exception + A) : M A :=
  fun p =>
    match r with
    | inl e => Throw e p
    | inr a => Return a p
    end.

Notation "x <- c ;; k" := (bind c (fun x => k))
  (at level 61, c at next level, right associativity).
Notation "c ;; k" := (bind c (fun _ => k))
  (at level 61, right associativity).

(** [template <typename T> static bool regAction(const std::string& name)] *)
Definition regAction (T : Class) (name : string) : M bool :=
  registry <- read_actions ;;
  match StdMap.find name registry with
  | None => write_actions (StdMap.add name (createAction T) registry)
  | Some _ =>
      log ERR
        (Str.c_str (Str.format "Action '{}' is already registered" name)) [] ;;
      throw (runtime_error "Actions with the same name found")
  end ;;
  ret true.

(** The list of available actions built in the error branch of [getAction]:
    [std::accumulate(std::next(actions.begin()), actions.end(),
    actions.begin()->first, ...)]. *)
Definition available_actions (registry : StdMap.t Creator) : M string :=
  let begin := StdMap.elements registry in
  first <- defined (Iter.next begin) ;;
  init <- defined (Iter.deref begin) ;;
  ret (Iter.accumulate first (fst init)
         (fun list act => (list ++ ", ") ++ fst act)).

(** [static std::unique_ptr<ActionBase> getAction(const std::string& name,
    const json& jsonObj)] *)
Definition getAction (name : string) (jsonObj : json)
  : M (unique_ptr Object) :=
  registry <- read_actions ;;
  match StdMap.find name registry with
  | Some second => invoke (second jsonObj)
  | None =>
      acts <- available_actions registry ;;
      log ERR
        (Str.c_str (Str.format "Action '{}' is not registered" name))
        [entry "AVAILABLE_ACTIONS=%s" (Str.c_str acts)] ;;
      throw (runtime_error "Unsupported action name given")
  end.

(** [ActionRegister<T>]: [static inline bool registered =
    ActionFactory::regAction<T>(T::name)]. *)
Definition ActionRegister (T : Class) : M bool :=
  regAction T (ActionBase.name T).

(** The factory has these two operations and no other. *)
Inductive Op : Type :=
| OpRegAction (T : Class) (name : string)
| OpGetAction (name : string) (jsonObj : json).

Definition perform (op : Op) : M unit :=
  match op with
  | OpRegAction T name => regAction T name ;; ret tt
  | OpGetAction name jsonObj => getAction name jsonObj ;; ret tt
  end.

(** A process that goes on after each operation, whether it returned or
    threw (the caller caught the exception); [None] once an operation had
    undefined behaviour. *)
Fixpoint run (ops : list Op) (p : Process) : option Process :=
  match ops with
  | [] => Some p
  | op :: rest =>
      match perform op p with
      | Return _ p' => run rest p'
      | Throw _ p' => run rest p'
      | Undefined => None
      end
  end.

(** Every mapping of [m] is a mapping of [m']. *)
Definition extends (m m' : StdMap.t Creator) : Prop :=
  forall n c, StdMap.find n m = Some c -> StdMap.find n m' = Some c.

(** The process before any registration. *)
Definition start : Process := mkProcess (StdMap.empty Creator) [].

(** Static initialisation, before [main()]: for each class [T] of [Ts] (the
    classes that derive from [ActionRegister<T>], in the order in which their
    [registered] members happen to be initialised) the initialiser
    [ActionFactory::regAction<T>(T::name)] runs; an exception ends it. *)
Fixpoint static_init (Ts : list Class) : M unit :=
  match Ts with
  | [] => ret tt
  | T :: rest => ActionRegister T ;; static_init rest
  end.

(** Every creator in [m] is a [createAction<T>]. *)
Definition only_createAction (m : StdMap.t Creator) : Prop :=
  forall n c, StdMap.find n m = Some c -> exists T, c = createAction T.

End WithAction.
Arguments Outcome : clear implicits.
Arguments Process : clear implicits.
Arguments Return {Action A} a p.
Arguments Throw {Action A} e p.
Arguments Undefined {Action A}.
End ActionFactory.

(** ** Reading a JSON fragment *)

Module Json.

Fixpoint assoc (key : string) (fields : list (string * json)) : option json :=
  match fields with
  | [] => None
  | (k, v) :: rest => if String.eqb key k then Some v else assoc key rest
  end.

(** The value under [key] of an object; nothing is under a key of a value
    that is not an object. *)
Definition member (key : string) (j : json) : option json :=
  match j with
  | Jobject fields => assoc key fields
  | _ => None
  end.

Definition contains (key : string) (j : json) : bool :=
  match member key j with
  | Some _ => true
  | None => false
  end.

Definition as_string (j : json) : option string :=
  match j with
  | Jstring s => Some s
  | _ => None
  end.

Fixpoint as_strings (items : list json) : option (list string) :=
  match items with
  | [] => Some []
  | item :: rest =>
      match as_string item, as_strings rest with
      | Some s, Some ss => Some (s :: ss)
      | _, _ => None
      end
  end.

Definition as_string_array (j : json) : option (list string) :=
  match j with
  | Jarray items => as_strings items
  | _ => None
  end.

(** The string under [key], when [key] is there and holds a string. *)
Definition get_string (key : string) (j : json) : option string :=
  match member key j with
  | Some v => as_string v
  | None => None
  end.

(** The strings under [key], when [key] is there and holds an array of
    strings. *)
Definition get_strings (key : string) (j : json) : option (list string) :=
  match member key j with
  | Some v => as_string_array v
  | None => None
  end.

End Json.

(** ** [Fan]: a configured fan *)

Module Fan.

(** A failed construction names the field at fault. *)
Inductive ParseError : Type :=
| Missing (key : string)
| WrongType (key : string).

Definition required {A : Type} (key : string) (conv : json -> option A)
    (jsonObj : json) : ParseError + A :=
  match Json.member key jsonObj with
  | None => inl (Missing key)
  | Some v =>
      match conv v with
      | None => inl (WrongType key)
      | Some a => inr a
      end
  end.

Definition optional {A : Type} (key : string) (conv : json -> option A)
    (default : A) (jsonObj : json) : ParseError + A :=
  match Json.member key jsonObj with
  | None => inr default
  | Some v =>
      match conv v with
      | None => inl (WrongType key)
      | Some a => inr a
      end
  end.

Definition and_then {A B : Type} (r : ParseError + A)
    (k : A -> ParseError + B) : ParseError + B :=
  match r with
  | inl e => inl e
  | inr a => k a
  end.

Notation "x <- r ;; k" := (and_then r (fun x => k))
  (at level 61, r at next level, right associativity).

(** Modelled from the spec: the base class [ConfigBase] of
    [config_base.hpp], which is not among the sources.  The spec gives a
    configuration entity a mandatory, stable [name] read from the fragment
    (its list of profiles is the member [_profiles] that [fan.hpp] declares
    in [Fan] itself). *)
Record ConfigBase : Type := mkConfigBase { _name : string }.

Definition ConfigBase_ctor (jsonObj : json) : ParseError + ConfigBase :=
  n <- required "name" Json.as_string jsonObj ;;
  inr (mkConfigBase n).

Section WithBus.

(** [sdbusplus::bus::bus]: the handle is kept, never used here. *)
Context {bus : Type}.

(** The data members of [Fan], after its base. *)
Record t : Type := mk {
  config_base : ConfigBase;
  _bus : bus;
  _profiles : list string;
  _zone : string;
  _sensors : list string;
  _interface : string
}.

Definition getName (this : t) : string := _name (config_base this).
Definition getProfiles (this : t) : list string := _profiles this.
Definition getZone (this : t) : string := _zone this.
Definition getSensors (this : t) : list string := _sensors this.
Definition getInterface (this : t) : string := _interface this.

(** Modelled from the spec: the constructor [Fan::Fan(bus, jsonObj)], which
    [fan.hpp] declares and [fan.cpp] (not among the sources) defines.  By the
    spec the fragment must hold [zone] (a string), [sensors] (an array of
    strings) and [interface] (a string), construction failing on a missing
    or mistyped one with an error that names the field; [profiles] is an
    optional array of strings whose absence means the empty list; the bus
    handle is only retained. *)
Definition ctor (b : bus) (jsonObj : json) : ParseError + t :=
  cb <- ConfigBase_ctor jsonObj ;;
  profiles <- optional "profiles" Json.as_string_array [] jsonObj ;;
  zone <- required "zone" Json.as_string jsonObj ;;
  sensors <- required "sensors" Json.as_string_array jsonObj ;;
  interface <- required "interface" Json.as_string jsonObj ;;
  inr (mk cb b profiles zone sensors interface).

End WithBus.
Arguments t : clear implicits.

(** Modelled from the spec: profile matching, which the sources leave to the
    zone engine.  The active profiles are given from outside as a list; an
    entity is active when it names no profile or when one of the profiles
    it names is among the active ones. *)
Definition is_active_profile (active : list string) (p : string) : bool :=
  existsb (String.eqb p) active.

Definition profiles_match (profiles active : list string) : bool :=
  match profiles with
  | [] => true
  | _ :: _ => existsb (is_active_profile active) profiles
  end.

Definition isActive {bus : Type} (this : t bus) (active : list string) : bool :=
  profiles_match (getProfiles this) active.

End Fan.

(** ** Concrete behaviour types and processes for the examples

    [Action] is instantiated with [unit].  [SetSpeed] declares the name
    ["set_speed"] and constructs its base under it; [CountState] declares
    ["count_state"], and its effect counts its own invocations. *)

Module Examples.

Definition SetSpeed : ActionBase.Class unit :=
  ActionBase.mkClass "set_speed" unit
    (fun _ => inr ("set_speed", tt))
    (fun _ m => (tt, m)).

Definition CountState : ActionBase.Class unit :=
  ActionBase.mkClass "count_state" nat
    (fun _ => inr ("count_state", 0))
    (fun _ n => (tt, S n)).

(** The process reached from [start] by a list of operations, when none of
    them has undefined behaviour. *)
Definition after (ops : list (@ActionFactory.Op unit))
  : ActionFactory.Process unit :=
  match ActionFactory.run ops ActionFactory.start with
  | Some p => p
  | None => ActionFactory.start
  end.

(** Only [SetSpeed] registered, by its [ActionRegister]. *)
Definition one_action : ActionFactory.Process unit :=
  after [ActionFactory.OpRegAction SetSpeed "set_speed"].

(** Two classes registered under three names. *)
Definition three_names : ActionFactory.Process unit :=
  after [ActionFactory.OpRegAction SetSpeed "set_speed";
         ActionFactory.OpRegAction CountState "count_state";
         ActionFactory.OpRegAction SetSpeed "override_speed"].

(** A class that declares the name of [SetSpeed], and whose constructor
    throws on every fragment. *)
Definition SetSpeedStrict : ActionBase.Class unit :=
  ActionBase.mkClass "set_speed" unit
    (fun _ => inl (other_exception "missing field"))
    (fun _ m => (tt, m)).

(** The process after the static initialisation of [SetSpeed] and
    [CountState]. *)
Definition initialised : ActionFactory.Process unit :=
  match ActionFactory.static_init [SetSpeed; CountState]
          ActionFactory.start with
  | ActionFactory.Return _ p => p
  | _ => ActionFactory.start
  end.

Definition fan0 : json :=
  Jobject [("name", Jstring "fan0"); ("zone", Jstring "zone1");
           ("sensors", Jarray [Jstring "fan0_tach"]);
           ("interface", Jstring "xyz.Target")].

End Examples.

(** * Properties *)

(** ** Strings and the ordered map *)

Lemma append_assoc (a b c : string) : (a ++ b) ++ c = a ++ b ++ c.
Proof.
  induction a as [| ch a IH]; simpl.
  - reflexivity.
  - now rewrite IH.
Qed.

Lemma concat_cons_sep (sep a b : string) (l : list string) :
  String.concat sep (((a ++ sep) ++ b) :: l) = a ++ sep ++ String.concat sep (b :: l).
Proof.
  destruct l as [| y l]; simpl.
  - apply append_assoc.
  - now rewrite !append_assoc.
Qed.

(** [std::accumulate] with the joining lambda is [String.concat]. *)
Lemma accumulate_concat {V : Type} (sep : string) (rest : list (string * V))
    (init : string) :
  Iter.accumulate rest init (fun list act => (list ++ sep) ++ fst act)
  = String.concat sep (init :: map fst rest).
Proof.
  revert init.
  induction rest as [| [k v] rest IH]; intros init; simpl.
  - reflexivity.
  - rewrite IH. simpl fst.
    change (String.concat sep (((init ++ sep) ++ k) :: map fst rest)
            = init ++ sep ++ String.concat sep (k :: map fst rest)).
    apply concat_cons_sep.
Qed.

Lemma c_str_no_nul (s : string) :
  (forall c, In c (list_ascii_of_string s) -> c <> Ascii.zero) ->
  Str.c_str s = s.
Proof.
  induction s as [| c s IH]; simpl; intros H.
  - reflexivity.
  - destruct (Ascii.eqb_spec c Ascii.zero) as [-> | _].
    + exfalso. apply (H Ascii.zero); [now left | reflexivity].
    + f_equal. apply IH. intros c' Hc'. apply H. now right.
Qed.

Lemma ltb_lt (a b : string) : (a <? b)%string = true <-> String_as_OT.lt a b.
Proof.
  rewrite <- String_as_OT.cmp_lt. unfold String.ltb, String_as_OT.cmp.
  destruct (String.compare a b); split; congruence.
Qed.

Lemma ltb_irrefl (a : string) : (a <? a)%string = false.
Proof.
  unfold String.ltb.
  assert (H : String.compare a a = Eq) by now apply String_as_OT.cmp_eq.
  now rewrite H.
Qed.

Section MapFacts.

Context {V : Type}.
Implicit Types (m : StdMap.t V) (k : string).

Lemma keys_sorted m :
  StronglySorted (fun a b => (a <? b)%string = true) (keys m).
Proof.
  unfold keys.
  assert (S : Sorted String_as_OT.lt (map fst (StdMap.elements m))).
  { generalize (StdMap.elements_3 m).
    induction 1 as [| [k v] l Hs IH Hhd]; simpl; constructor; auto.
    destruct Hhd as [| [k' v'] l' Hlt]; simpl; constructor.
    exact Hlt. }
  apply Sorted_StronglySorted in S.
  - induction S as [| a l Hs IH Hall]; constructor; auto.
    eapply Forall_impl; [| exact Hall].
    intros b Hb. now apply ltb_lt.
  - intros x y z. apply String_as_OT.lt_trans.
Qed.

Lemma keys_NoDup m : NoDup (keys m).
Proof.
  generalize (keys_sorted m).
  induction 1 as [| a l Hs IH Hall]; constructor; auto.
  intros Hin. rewrite Forall_forall in Hall.
  specialize (Hall a Hin). rewrite ltb_irrefl in Hall. discriminate.
Qed.

Lemma keys_In m k : In k (keys m) <-> StdMap.In k m.
Proof.
  rewrite StdMapFacts.elements_in_iff. unfold keys. split.
  - intros Hin. apply in_map_iff in Hin as [[k' v] [Hk Hin]].
    simpl in Hk. subst k'. exists v.
    apply In_InA; [apply StdMapProps.eqke_equiv | exact Hin].
  - intros [v Hin]. apply InA_alt in Hin as [[k' v'] [[Hk Hv] Hin]].
    simpl in Hk, Hv. subst. apply in_map_iff. now exists (k', v').
Qed.

Lemma mem_true_find m k :
  StdMap.mem k m = true <-> exists v, StdMap.find k m = Some v.
Proof.
  rewrite StdMapFacts.mem_find_b.
  destruct (StdMap.find k m) as [v |]; split.
  - intros _. now exists v.
  - reflexivity.
  - discriminate.
  - intros [v H]. discriminate.
Qed.

Lemma mem_false_find m k :
  StdMap.mem k m = false <-> StdMap.find k m = None.
Proof.
  rewrite StdMapFacts.mem_find_b.
  destruct (StdMap.find k m) as [v |]; split; congruence.
Qed.

Lemma find_None_elements m k :
  StdMap.elements m = [] -> StdMap.find k m = None.
Proof.
  intros He. apply StdMapFacts.not_find_in_iff.
  rewrite <- keys_In. unfold keys. rewrite He. simpl. tauto.
Qed.

Lemma cardinal_add_absent m k (v : V) :
  StdMap.find k m = None ->
  StdMap.cardinal (StdMap.add k v m) = S (StdMap.cardinal m).
Proof.
  intros Hk. apply StdMapProps.cardinal_2 with (x := k) (e := v).
  - now apply StdMapFacts.not_find_in_iff.
  - intros y. reflexivity.
Qed.

End MapFacts.

(** ** The factory: equations of [regAction] and [getAction] *)

Section Factory.

Context {Action : Type}.

Local Abbreviation Class := (ActionBase.Class Action).
Local Abbreviation Object := (ActionBase.Object Action).
Local Abbreviation Process := (ActionFactory.Process Action).
Local Abbreviation Creator := (@ActionFactory.Creator Action).

Implicit Types (T : Class) (p : Process) (name : string) (jsonObj : json).

Lemma append_nil_r (s : string) : s ++ "" = s.
Proof. induction s as [| c s IH]; simpl; [reflexivity | now rewrite IH]. Qed.

Lemma regAction_absent T name p :
  StdMap.find name (ActionFactory.actions p) = None ->
  ActionFactory.regAction T name p
  = ActionFactory.Return true
      (ActionFactory.mkProcess
         (StdMap.add name (ActionFactory.createAction T)
            (ActionFactory.actions p))
         (ActionFactory.journal p)).
Proof.
  intros H. unfold ActionFactory.regAction, ActionFactory.bind,
    ActionFactory.read_actions.
  now rewrite H.
Qed.

Lemma regAction_present T name p (c : Creator) :
  StdMap.find name (ActionFactory.actions p) = Some c ->
  ActionFactory.regAction T name p
  = ActionFactory.Throw (runtime_error "Actions with the same name found")
      (ActionFactory.mkProcess (ActionFactory.actions p)
         (ActionFactory.journal p ++ [collision_record name])).
Proof.
  intros H. unfold ActionFactory.regAction, ActionFactory.bind,
    ActionFactory.read_actions.
  now rewrite H.
Qed.

Lemma getAction_hit name jsonObj p (c : Creator) :
  StdMap.find name (ActionFactory.actions p) = Some c ->
  ActionFactory.getAction name jsonObj p = ActionFactory.invoke (c jsonObj) p.
Proof.
  intros H. unfold ActionFactory.getAction, ActionFactory.bind,
    ActionFactory.read_actions.
  now rewrite H.
Qed.

Lemma available_actions_nonempty (registry : StdMap.t Creator) p :
  StdMap.elements registry <> [] ->
  ActionFactory.available_actions registry p
  = ActionFactory.Return (String.concat ", " (keys registry)) p.
Proof.
  intros H. unfold ActionFactory.available_actions, keys.
  destruct (StdMap.elements registry) as [| [k v] rest]; [congruence |].
  unfold ActionFactory.bind; simpl.
  unfold ActionFactory.ret. f_equal.
  apply (accumulate_concat ", " rest k).
Qed.

Lemma available_actions_empty (registry : StdMap.t Creator) p :
  StdMap.elements registry = [] ->
  ActionFactory.available_actions registry p = ActionFactory.Undefined.
Proof.
  intros H. unfold ActionFactory.available_actions. now rewrite H.
Qed.

Lemma getAction_miss name jsonObj p :
  StdMap.find name (ActionFactory.actions p) = None ->
  StdMap.elements (ActionFactory.actions p) <> [] ->
  ActionFactory.getAction name jsonObj p
  = ActionFactory.Throw (runtime_error "Unsupported action name given")
      (ActionFactory.mkProcess (ActionFactory.actions p)
         (ActionFactory.journal p
          ++ [unknown_record name
                (String.concat ", " (keys (ActionFactory.actions p)))])).
Proof.
  intros Hf He. unfold ActionFactory.getAction.
  unfold ActionFactory.bind at 1. unfold ActionFactory.read_actions.
  rewrite Hf. unfold ActionFactory.bind at 1.
  rewrite (available_actions_nonempty _ _ He).
  unfold ActionFactory.bind, ActionFactory.log, ActionFactory.throw.
  unfold unknown_record, entry. simpl. now rewrite append_nil_r.
Qed.

Lemma getAction_miss_empty name jsonObj p :
  StdMap.elements (ActionFactory.actions p) = [] ->
  ActionFactory.getAction name jsonObj p = ActionFactory.Undefined.
Proof.
  intros He. unfold ActionFactory.getAction.
  unfold ActionFactory.bind at 1. unfold ActionFactory.read_actions.
  rewrite (find_None_elements _ name He). unfold ActionFactory.bind at 1.
  now rewrite (available_actions_empty _ _ He).
Qed.

End Factory.

(** ** The factory: registration *)

Section Registration.

Context {Action : Type}.

Local Abbreviation Class := (ActionBase.Class Action).
Local Abbreviation Process := (ActionFactory.Process Action).

Implicit Types (T : Class) (p : Process) (name : string) (jsonObj : json).

(** C1. Registering a name that the registry already holds throws, whatever
    the class [T] being registered (the one already there or another), and
    leaves the registry as it was: the outcome carries the same [actions],
    and only the journal has one more record. *)
Theorem regAction_collision_throws T name p :
  StdMap.mem name (ActionFactory.actions p) = true ->
  exists p',
    ActionFactory.regAction T name p
    = ActionFactory.Throw (runtime_error "Actions with the same name found") p'
    /\ ActionFactory.actions p' = ActionFactory.actions p
    /\ ActionFactory.journal p'
       = (ActionFactory.journal p ++ [collision_record name])%list.
Proof.
  intros Hin. apply mem_true_find in Hin as [c Hf].
  eexists. split; [apply (regAction_present T name p c Hf) |].
  split; reflexivity.
Qed.

(** C4. Registering a name that the registry does not hold returns [true];
    afterwards the name maps to [createAction<T>], every other name maps to
    what it mapped to before, the registry has exactly one entry more, and
    nothing is logged. *)
Theorem regAction_fresh_adds_one_entry T name p :
  StdMap.mem name (ActionFactory.actions p) = false ->
  exists p',
    ActionFactory.regAction T name p = ActionFactory.Return true p'
    /\ StdMap.find name (ActionFactory.actions p')
       = Some (ActionFactory.createAction T)
    /\ (forall n, n <> name ->
          StdMap.find n (ActionFactory.actions p')
          = StdMap.find n (ActionFactory.actions p))
    /\ StdMap.cardinal (ActionFactory.actions p')
       = S (StdMap.cardinal (ActionFactory.actions p))
    /\ ActionFactory.journal p' = ActionFactory.journal p.
Proof.
  intros Hnin. apply mem_false_find in Hnin.
  eexists. split; [apply (regAction_absent T name p Hnin) |]. simpl.
  repeat split.
  - now apply StdMapFacts.add_eq_o.
  - intros n Hn. apply StdMapFacts.add_neq_o. congruence.
  - now apply cardinal_add_absent.
Qed.

End Registration.

(** ** The factory: resolution of an unregistered name *)

Section UnknownName.

Context {Action : Type}.

Local Abbreviation Process := (ActionFactory.Process Action).

Implicit Types (p : Process) (name : string) (jsonObj : json).

(** C2. On the registry in which no action has been registered, resolving
    any name does not throw: the error branch advances and dereferences
    [actions.begin()], which is [actions.end()], and the behaviour is
    undefined. *)
Theorem getAction_on_empty_registry_undefined name jsonObj :
  ActionFactory.getAction (Action := Action) name jsonObj ActionFactory.start
  = ActionFactory.Undefined.
Proof. now apply getAction_miss_empty. Qed.

(** C9. For a name that is not registered, the error branch of [getAction]
    has a defined behaviour exactly when the registry is not empty: it reads
    the first entry of the registry without checking that there is one. *)
Theorem getAction_error_branch_defined_iff_nonempty name jsonObj p :
  StdMap.find name (ActionFactory.actions p) = None ->
  (ActionFactory.getAction name jsonObj p <> ActionFactory.Undefined
   <-> StdMap.elements (ActionFactory.actions p) <> []).
Proof.
  intros Hf. split.
  - intros Hdef He. apply Hdef. now apply getAction_miss_empty.
  - intros He. rewrite (getAction_miss name jsonObj p Hf He). discriminate.
Qed.

(** C10. On a registry that is not empty, resolving a name that is not
    registered builds the list of available actions as the registered names
    joined by [", "], each name once and in increasing lexicographic order;
    that list goes into the journal under [AVAILABLE_ACTIONS] and the call
    throws. *)
Theorem getAction_unknown_lists_sorted_names name jsonObj p :
  StdMap.find name (ActionFactory.actions p) = None ->
  StdMap.elements (ActionFactory.actions p) <> [] ->
  ActionFactory.available_actions (ActionFactory.actions p) p
  = ActionFactory.Return
      (String.concat ", " (keys (ActionFactory.actions p))) p
  /\ ActionFactory.getAction name jsonObj p
     = ActionFactory.Throw (runtime_error "Unsupported action name given")
         (ActionFactory.mkProcess (ActionFactory.actions p)
            (ActionFactory.journal p
             ++ [unknown_record name
                   (String.concat ", " (keys (ActionFactory.actions p)))]))
  /\ StronglySorted (fun a b => (a <? b)%string = true)
       (keys (ActionFactory.actions p))
  /\ NoDup (keys (ActionFactory.actions p))
  /\ (forall n,
        In n (keys (ActionFactory.actions p))
        <-> StdMap.In n (ActionFactory.actions p)).
Proof.
  intros Hf He. repeat split.
  - now apply available_actions_nonempty.
  - now apply getAction_miss.
  - apply keys_sorted.
  - apply keys_NoDup.
  - apply keys_In.
  - apply keys_In.
Qed.

End UnknownName.

(** ** The factory: the registry only grows *)

Section Growth.

Context {Action : Type}.

Local Abbreviation Class := (ActionBase.Class Action).
Local Abbreviation Process := (ActionFactory.Process Action).
Local Abbreviation Creator := (@ActionFactory.Creator Action).

Implicit Types (T : Class) (p : Process) (name : string) (jsonObj : json).

Lemma getAction_keeps_registry name jsonObj p :
  match ActionFactory.getAction name jsonObj p with
  | ActionFactory.Return _ p' | ActionFactory.Throw _ p' =>
      ActionFactory.actions p' = ActionFactory.actions p
  | ActionFactory.Undefined => StdMap.elements (ActionFactory.actions p) = []
  end.
Proof.
  destruct (StdMap.find name (ActionFactory.actions p)) as [c |] eqn:Hf.
  - rewrite (getAction_hit name jsonObj p c Hf).
    unfold ActionFactory.invoke. now destruct (c jsonObj).
  - destruct (StdMap.elements (ActionFactory.actions p)) as [| e l] eqn:He.
    + now rewrite (getAction_miss_empty name jsonObj p He).
    + rewrite (getAction_miss name jsonObj p Hf); [reflexivity |].
      rewrite He. discriminate.
Qed.

Lemma regAction_extends_registry T name p :
  match ActionFactory.regAction T name p with
  | ActionFactory.Return _ p' =>
      ActionFactory.extends (ActionFactory.actions p) (ActionFactory.actions p')
      /\ StdMap.cardinal (ActionFactory.actions p')
         = S (StdMap.cardinal (ActionFactory.actions p))
  | ActionFactory.Throw _ p' =>
      ActionFactory.actions p' = ActionFactory.actions p
  | ActionFactory.Undefined => False
  end.
Proof.
  destruct (StdMap.find name (ActionFactory.actions p)) as [c |] eqn:Hf.
  - now rewrite (regAction_present T name p c Hf).
  - rewrite (regAction_absent T name p Hf). simpl. split.
    + intros n c Hn. rewrite StdMapFacts.add_neq_o; [exact Hn |].
      intros ->. congruence.
    + now apply cardinal_add_absent.
Qed.

Lemma perform_keeps_entries (op : ActionFactory.Op) p :
  match ActionFactory.perform op p with
  | ActionFactory.Return _ p' | ActionFactory.Throw _ p' =>
      ActionFactory.extends (ActionFactory.actions p) (ActionFactory.actions p')
  | ActionFactory.Undefined => StdMap.elements (ActionFactory.actions p) = []
  end.
Proof.
  destruct op as [T name | name jsonObj]; simpl; unfold ActionFactory.bind.
  - generalize (regAction_extends_registry T name p).
    destruct (ActionFactory.regAction T name p) as [b p' | e p' |]; simpl.
    + tauto.
    + intros ->. now intros n c.
    + tauto.
  - generalize (getAction_keeps_registry name jsonObj p).
    destruct (ActionFactory.getAction name jsonObj p) as [o p' | e p' |];
      simpl; try tauto; intros ->; now intros n c.
Qed.

Lemma run_keeps_entries (ops : list ActionFactory.Op) p n (c : Creator) :
  StdMap.find n (ActionFactory.actions p) = Some c ->
  exists p',
    ActionFactory.run ops p = Some p'
    /\ StdMap.find n (ActionFactory.actions p') = Some c.
Proof.
  revert p. induction ops as [| op ops IH]; intros p Hn; simpl.
  - now exists p.
  - generalize (perform_keeps_entries op p).
    destruct (ActionFactory.perform op p) as [u p' | e p' |]; intros Hstep.
    + apply IH. now apply Hstep.
    + apply IH. now apply Hstep.
    + rewrite (find_None_elements _ n Hstep) in Hn. discriminate.
Qed.

(** C8. The registry only grows.  [getAction] hands back the registry it
    found, on a hit and on a miss (its one undefined case is on the empty
    registry, which has no entry to lose); [regAction] either adds one entry
    and keeps every mapping there was, or throws and keeps the registry; and
    a mapping that is in the registry is still there, unchanged, after any
    further operations of the factory, none of which is then undefined. *)
Theorem registry_only_grows :
  (forall name jsonObj p,
      match ActionFactory.getAction name jsonObj p with
      | ActionFactory.Return _ p' | ActionFactory.Throw _ p' =>
          ActionFactory.actions p' = ActionFactory.actions p
      | ActionFactory.Undefined =>
          StdMap.elements (ActionFactory.actions p) = []
      end)
  /\ (forall T name p,
      match ActionFactory.regAction T name p with
      | ActionFactory.Return _ p' =>
          ActionFactory.extends (ActionFactory.actions p)
            (ActionFactory.actions p')
          /\ StdMap.cardinal (ActionFactory.actions p')
             = S (StdMap.cardinal (ActionFactory.actions p))
      | ActionFactory.Throw _ p' =>
          ActionFactory.actions p' = ActionFactory.actions p
      | ActionFactory.Undefined => False
      end)
  /\ (forall (ops : list ActionFactory.Op) p n (c : Creator),
      StdMap.find n (ActionFactory.actions p) = Some c ->
      exists p',
        ActionFactory.run ops p = Some p'
        /\ StdMap.find n (ActionFactory.actions p') = Some c).
Proof.
  split; [| split].
  - apply getAction_keeps_registry.
  - apply regAction_extends_registry.
  - apply run_keeps_entries.
Qed.

End Growth.

(** ** The factory: resolution of a registered name, and the action's name *)

Section Resolution.

Context {Action : Type}.

Local Abbreviation Class := (ActionBase.Class Action).
Local Abbreviation Object := (ActionBase.Object Action).
Local Abbreviation Process := (ActionFactory.Process Action).
Local Abbreviation Creator := (@ActionFactory.Creator Action).

Implicit Types (T : Class) (p : Process) (name : string) (jsonObj : json).

Lemma createAction_returns T jsonObj (o : unique_ptr Object) p p' :
  ActionFactory.invoke (ActionFactory.createAction T jsonObj) p
  = ActionFactory.Return o p' ->
  p' = p
  /\ exists n m,
      ActionBase.construct T jsonObj = inr (n, m)
      /\ o = Some (ActionBase.mkObject T (ActionBase.ctor n) m).
Proof.
  unfold ActionFactory.invoke, ActionFactory.createAction,
    ActionFactory.make_unique.
  destruct (ActionBase.construct T jsonObj) as [e | [n m]]; intros H.
  - discriminate.
  - inversion H; subst. split; [reflexivity |]. now exists n, m.
Qed.

(** C3, as the code has it.  Resolving a registered name is one call of the
    creator stored under that name, on the fragment given, and nothing else:
    the process is as before.  When that creator is [createAction<T>], a
    returned pointer is not null and points to a newly made object whose
    dynamic type is [T]; so it is not an object of a class [T2] other than
    [T] that is registered under another name.  (One class may be registered
    under several names, and then resolving any of them makes an object of
    that class.) *)
Theorem getAction_invokes_stored_creator name jsonObj p (c : Creator) :
  StdMap.find name (ActionFactory.actions p) = Some c ->
  ActionFactory.getAction name jsonObj p
  = ActionFactory.invoke (c jsonObj) p
  /\ (forall T, c = ActionFactory.createAction T ->
      forall (o : unique_ptr Object) p',
        ActionFactory.getAction name jsonObj p = ActionFactory.Return o p' ->
        p' = p
        /\ exists obj,
            o = Some obj
            /\ ActionBase.dyn obj = T
            /\ (forall n2 T2,
                  StdMap.find n2 (ActionFactory.actions p)
                  = Some (ActionFactory.createAction T2) ->
                  T2 <> T -> ActionBase.dyn obj <> T2)).
Proof.
  intros Hf. split; [now apply getAction_hit |].
  intros T -> o p' Hret.
  rewrite (getAction_hit name jsonObj p _ Hf) in Hret.
  apply createAction_returns in Hret as [-> (n & m & _ & ->)].
  split; [reflexivity |].
  eexists. split; [reflexivity |]. simpl. split; [reflexivity |].
  intros n2 T2 _ Hne Heq. now apply Hne.
Qed.

Lemma lifetime_keeps_base (cs : list ActionBase.Call) (o : Object) :
  ActionBase.base (ActionBase.lifetime cs o) = ActionBase.base o.
Proof.
  revert o. unfold ActionBase.lifetime.
  induction cs as [| c cs IH]; intros o; simpl.
  - reflexivity.
  - rewrite IH. destruct c; simpl.
    + reflexivity.
    + unfold ActionBase.getAction.
      now destruct (ActionBase.getAction_override _ _ _).
Qed.

(** C5.  An [ActionBase] constructed under the name [s] answers [s] to
    [getName()]; calling [getName()] leaves the object as it is, and
    whatever is called on an object over its lifetime, [getName()] keeps
    answering the same; so an object that a class constructs under [s],
    resolved through the factory, is a non-null pointer to an object whose
    [getName()] is [s], now and later.  In particular a class that
    constructs its objects under its declared name and is registered by its
    [ActionRegister] resolves, under that name, to a non-null object whose
    [getName()] is the name resolved. *)
Theorem getName_is_construction_name :
  (forall s, ActionBase.getName (ActionBase.ctor s) = s)
  /\ (forall o : Object, ActionBase.call ActionBase.CallGetName o = o)
  /\ (forall (cs : list ActionBase.Call) (o : Object),
        ActionBase.Object_getName (ActionBase.lifetime cs o)
        = ActionBase.Object_getName o)
  /\ (forall T name jsonObj p s (m : ActionBase.Members T),
        StdMap.find name (ActionFactory.actions p)
        = Some (ActionFactory.createAction T) ->
        ActionBase.construct T jsonObj = inr (s, m) ->
        exists obj,
          ActionFactory.getAction name jsonObj p
          = ActionFactory.Return (Some obj) p
          /\ forall cs,
              ActionBase.Object_getName (ActionBase.lifetime cs obj) = s)
  /\ (forall T jsonObj p (m : ActionBase.Members T),
        StdMap.mem (ActionBase.name T) (ActionFactory.actions p) = false ->
        ActionBase.construct T jsonObj = inr (ActionBase.name T, m) ->
        exists p' obj,
          ActionFactory.ActionRegister T p = ActionFactory.Return true p'
          /\ ActionFactory.getAction (ActionBase.name T) jsonObj p'
             = ActionFactory.Return (Some obj) p'
          /\ ActionBase.Object_getName obj = ActionBase.name T).
Proof.
  assert (Hlife : forall (cs : list ActionBase.Call) (o : Object),
             ActionBase.Object_getName (ActionBase.lifetime cs o)
             = ActionBase.Object_getName o).
  { intros cs o. unfold ActionBase.Object_getName.
    now rewrite lifetime_keeps_base. }
  assert (Hres : forall T name jsonObj p s (m : ActionBase.Members T),
             StdMap.find name (ActionFactory.actions p)
             = Some (ActionFactory.createAction T) ->
             ActionBase.construct T jsonObj = inr (s, m) ->
             ActionFactory.getAction name jsonObj p
             = ActionFactory.Return
                 (Some (ActionBase.mkObject T (ActionBase.ctor s) m)) p).
  { intros T name jsonObj p s m Hf Hc.
    rewrite (getAction_hit name jsonObj p _ Hf).
    unfold ActionFactory.invoke, ActionFactory.createAction,
      ActionFactory.make_unique.
    now rewrite Hc. }
  split; [reflexivity |]. split; [reflexivity |]. split; [exact Hlife |].
  split.
  - intros T name jsonObj p s m Hf Hc. eexists.
    split; [apply (Hres T name jsonObj p s m Hf Hc) |].
    intros cs. now rewrite Hlife.
  - intros T jsonObj p m Hnin Hc.
    apply mem_false_find in Hnin.
    eexists. eexists. split; [| split].
    + apply (regAction_absent T (ActionBase.name T) p Hnin).
    + apply (Hres T (ActionBase.name T) jsonObj _ (ActionBase.name T) m).
      * simpl. now apply StdMapFacts.add_eq_o.
      * exact Hc.
    + reflexivity.
Qed.

End Resolution.

(** ** The fan entity *)

Section FanEntity.

Context {bus : Type}.

Implicit Types (b : bus) (jsonObj : json) (fan : Fan.t bus).

Lemma ctor_fields b jsonObj n z ss i ps :
  Json.get_string "name" jsonObj = Some n ->
  Json.get_string "zone" jsonObj = Some z ->
  Json.get_strings "sensors" jsonObj = Some ss ->
  Json.get_string "interface" jsonObj = Some i ->
  (Json.contains "profiles" jsonObj = false /\ ps = []
   \/ Json.get_strings "profiles" jsonObj = Some ps) ->
  Fan.ctor b jsonObj = inr (Fan.mk (Fan.mkConfigBase n) b ps z ss i).
Proof.
  unfold Json.get_string, Json.get_strings, Json.contains.
  intros Hn Hz Hs Hi Hp.
  unfold Fan.ctor, Fan.ConfigBase_ctor, Fan.and_then, Fan.required,
    Fan.optional.
  destruct (Json.member "name" jsonObj) as [vn |]; [| discriminate].
  rewrite Hn.
  destruct (Json.member "zone" jsonObj) as [vz |]; [| discriminate].
  rewrite Hz.
  destruct (Json.member "sensors" jsonObj) as [vs |]; [| discriminate].
  rewrite Hs.
  destruct (Json.member "interface" jsonObj) as [vi |]; [| discriminate].
  rewrite Hi.
  destruct (Json.member "profiles" jsonObj) as [vp |].
  - destruct Hp as [[Hc _] | Hp]; [discriminate |]. now rewrite Hp.
  - destruct Hp as [[_ ->] | Hp]; [reflexivity | discriminate].
Qed.

Lemma ctor_fails_without_mandatory b jsonObj :
  Json.get_string "zone" jsonObj = None
  \/ Json.get_strings "sensors" jsonObj = None
  \/ Json.get_string "interface" jsonObj = None ->
  exists e, Fan.ctor b jsonObj = inl e.
Proof.
  unfold Json.get_string, Json.get_strings.
  unfold Fan.ctor, Fan.ConfigBase_ctor, Fan.and_then, Fan.required,
    Fan.optional.
  intros H.
  destruct (Json.member "name" jsonObj) as [vn |]; [| now eexists].
  destruct (Json.as_string vn); [| now eexists].
  destruct (Json.member "profiles" jsonObj) as [vp |];
    [destruct (Json.as_string_array vp); [| now eexists] |];
    (destruct (Json.member "zone" jsonObj) as [vz |]; [| now eexists];
     destruct (Json.as_string vz); [| now eexists];
     destruct (Json.member "sensors" jsonObj) as [vs |]; [| now eexists];
     destruct (Json.as_string_array vs); [| now eexists];
     destruct (Json.member "interface" jsonObj) as [vi |]; [| now eexists];
     destruct (Json.as_string vi); [| now eexists];
     destruct H as [H | [H | H]]; discriminate).
Qed.

Lemma ctor_no_profiles b jsonObj fan :
  Fan.ctor b jsonObj = inr fan ->
  Json.contains "profiles" jsonObj = false ->
  Fan.getProfiles fan = [].
Proof.
  unfold Json.contains.
  unfold Fan.ctor, Fan.ConfigBase_ctor, Fan.and_then, Fan.required,
    Fan.optional.
  destruct (Json.member "name" jsonObj) as [vn |]; [| discriminate].
  destruct (Json.as_string vn); [| discriminate].
  destruct (Json.member "profiles" jsonObj) as [vp |]; [discriminate 2 |].
  destruct (Json.member "zone" jsonObj) as [vz |]; [| discriminate].
  destruct (Json.as_string vz); [| discriminate].
  destruct (Json.member "sensors" jsonObj) as [vs |]; [| discriminate].
  destruct (Json.as_string_array vs); [| discriminate].
  destruct (Json.member "interface" jsonObj) as [vi |]; [| discriminate].
  destruct (Json.as_string vi); [| discriminate].
  intros H _. inversion H. reflexivity.
Qed.

(** C6.  Constructing a [Fan] fails when [zone], [sensors] or [interface]
    is missing from the fragment or holds a value of the wrong type.  When
    [name], [zone], [sensors] and [interface] are there with the right types
    (and [profiles] is absent or an array of strings), the construction
    succeeds and [getZone()], [getSensors()] and [getInterface()] return the
    values read.  A fan constructed from a fragment without [profiles] has
    the empty list of profiles.  The fragment of the scenario gives zone
    ["zone1"], sensors [["fan0_tach"]] and no profile. *)
Theorem Fan_ctor_mandatory_fields b :
  (forall jsonObj,
      Json.get_string "zone" jsonObj = None
      \/ Json.get_strings "sensors" jsonObj = None
      \/ Json.get_string "interface" jsonObj = None ->
      exists e, Fan.ctor b jsonObj = inl e)
  /\ (forall jsonObj n z ss i ps,
      Json.get_string "name" jsonObj = Some n ->
      Json.get_string "zone" jsonObj = Some z ->
      Json.get_strings "sensors" jsonObj = Some ss ->
      Json.get_string "interface" jsonObj = Some i ->
      (Json.contains "profiles" jsonObj = false /\ ps = []
       \/ Json.get_strings "profiles" jsonObj = Some ps) ->
      exists fan,
        Fan.ctor b jsonObj = inr fan
        /\ Fan.getZone fan = z
        /\ Fan.getSensors fan = ss
        /\ Fan.getInterface fan = i
        /\ Fan.getProfiles fan = ps)
  /\ (forall jsonObj fan,
      Fan.ctor b jsonObj = inr fan ->
      Json.contains "profiles" jsonObj = false ->
      Fan.getProfiles fan = [])
  /\ (exists fan,
      Fan.ctor b Examples.fan0 = inr fan
      /\ Fan.getZone fan = "zone1"
      /\ Fan.getSensors fan = ["fan0_tach"]
      /\ Fan.getInterface fan = "xyz.Target"
      /\ Fan.getProfiles fan = []).
Proof.
  split; [| split; [| split]].
  - intros jsonObj. apply ctor_fails_without_mandatory.
  - intros jsonObj n z ss i ps Hn Hz Hs Hi Hp. eexists.
    split; [apply (ctor_fields b jsonObj n z ss i ps Hn Hz Hs Hi Hp) |].
    repeat split.
  - intros jsonObj fan. apply ctor_no_profiles.
  - eexists. split; [reflexivity |]. repeat split.
Qed.

Lemma is_active_profile_In (active : list string) (q : string) :
  Fan.is_active_profile active q = true <-> In q active.
Proof.
  unfold Fan.is_active_profile. rewrite existsb_exists. split.
  - intros [x [Hx Heq]]. apply String.eqb_eq in Heq. now subst.
  - intros Hin. exists q. split; [exact Hin | apply String.eqb_refl].
Qed.

Lemma profiles_match_spec (profiles active : list string) :
  Fan.profiles_match profiles active = true
  <-> profiles = [] \/ exists q, In q profiles /\ In q active.
Proof.
  destruct profiles as [| q0 rest].
  - simpl. split; [now left | reflexivity].
  - unfold Fan.profiles_match. rewrite existsb_exists. split.
    + intros [q [Hq Ha]]. right. exists q. split; [exact Hq |].
      now apply is_active_profile_In.
    + intros [H | [q [Hq Ha]]]; [discriminate |].
      exists q. split; [exact Hq |]. now apply is_active_profile_In.
Qed.

(** C7.  Whether a fan is active is a function of its list of profiles and
    of the set of active profiles only: the fan is active exactly when its
    list is empty or names a profile of the set; two fans with the same list
    agree, and so do two enumerations of the same set.  A fan with profiles
    [["P1"; "P2"]] is active exactly when ["P1"] or ["P2"] is active. *)
Theorem isActive_iff_empty_or_intersects fan (active : list string) :
  (Fan.isActive fan active = true
   <-> Fan.getProfiles fan = []
       \/ exists q, In q (Fan.getProfiles fan) /\ In q active)
  /\ (forall fan' : Fan.t bus,
        Fan.getProfiles fan' = Fan.getProfiles fan ->
        Fan.isActive fan' active = Fan.isActive fan active)
  /\ (forall active',
        (forall q, In q active <-> In q active') ->
        Fan.isActive fan active' = Fan.isActive fan active)
  /\ (Fan.getProfiles fan = ["P1"; "P2"] ->
      (Fan.isActive fan active = true <-> In "P1" active \/ In "P2" active)).
Proof.
  unfold Fan.isActive. split; [apply profiles_match_spec |].
  split; [now intros fan' -> |]. split.
  - intros active' Hsame.
    apply eq_true_iff_eq. rewrite !profiles_match_spec.
    split; (intros [H | [q [Hq Ha]]]; [now left | right; exists q]);
      (split; [exact Hq | now apply Hsame]).
  - intros ->. rewrite profiles_match_spec. split.
    + intros [H | [q [[<- | [<- | []]] Ha]]];
        [discriminate | now left | now right].
    + intros [H | H]; right;
        [exists "P1" | exists "P2"]; (split; [simpl; tauto | exact H]).
Qed.

End FanEntity.

(** ** The properties at work on concrete processes *)

Section Instances.

Import Examples.

(** A second registration of ["set_speed"], for another class. *)
Lemma regAction_collision_throws_witness :
  exists p',
    ActionFactory.regAction CountState "set_speed" one_action
    = ActionFactory.Throw (runtime_error "Actions with the same name found") p'
    /\ ActionFactory.actions p' = ActionFactory.actions one_action
    /\ ActionFactory.journal p'
       = (ActionFactory.journal one_action
          ++ [collision_record "set_speed"])%list.
Proof.
  apply (regAction_collision_throws CountState "set_speed" one_action).
  reflexivity.
Defined.

Lemma regAction_fresh_adds_one_entry_witness :
  exists p',
    ActionFactory.regAction CountState "count_state" one_action
    = ActionFactory.Return true p'
    /\ StdMap.find "count_state" (ActionFactory.actions p')
       = Some (ActionFactory.createAction CountState)
    /\ (forall n, n <> "count_state" ->
          StdMap.find n (ActionFactory.actions p')
          = StdMap.find n (ActionFactory.actions one_action))
    /\ StdMap.cardinal (ActionFactory.actions p')
       = S (StdMap.cardinal (ActionFactory.actions one_action))
    /\ ActionFactory.journal p' = ActionFactory.journal one_action.
Proof.
  apply (regAction_fresh_adds_one_entry CountState "count_state" one_action).
  reflexivity.
Defined.

Lemma getAction_error_branch_defined_iff_nonempty_witness :
  ActionFactory.getAction "unknown_action" (Jobject []) one_action
  <> ActionFactory.Undefined
  <-> StdMap.elements (ActionFactory.actions one_action) <> [].
Proof.
  apply (getAction_error_branch_defined_iff_nonempty
           "unknown_action" (Jobject []) one_action).
  reflexivity.
Defined.

Lemma getAction_unknown_lists_sorted_names_witness :
  ActionFactory.getAction "unknown_action" (Jobject []) three_names
  = ActionFactory.Throw (runtime_error "Unsupported action name given")
      (ActionFactory.mkProcess (ActionFactory.actions three_names)
         [unknown_record "unknown_action"
            "count_state, override_speed, set_speed"]).
Proof.
  apply (getAction_unknown_lists_sorted_names
           "unknown_action" (Jobject []) three_names).
  - reflexivity.
  - vm_compute. discriminate.
Defined.

Lemma getAction_invokes_stored_creator_witness :
  ActionFactory.getAction "count_state" (Jobject []) three_names
  = ActionFactory.invoke
      (ActionFactory.createAction CountState (Jobject [])) three_names.
Proof.
  apply (getAction_invokes_stored_creator "count_state" (Jobject [])
           three_names (ActionFactory.createAction CountState)).
  reflexivity.
Defined.

(** C3 as stated fails: [SetSpeed] is registered under ["set_speed"] and
    under ["override_speed"], two distinct names, and resolving the first
    constructs an object of the class registered under the second. *)
Lemma getAction_same_class_under_two_names :
  "set_speed" <> "override_speed"
  /\ StdMap.find "set_speed" (ActionFactory.actions three_names)
     = Some (ActionFactory.createAction SetSpeed)
  /\ StdMap.find "override_speed" (ActionFactory.actions three_names)
     = Some (ActionFactory.createAction SetSpeed)
  /\ ~ (forall obj p',
         ActionFactory.getAction "set_speed" (Jobject []) three_names
         = ActionFactory.Return (Some obj) p' ->
         ActionBase.dyn obj <> SetSpeed).
Proof.
  split; [discriminate |]. split; [reflexivity |]. split; [reflexivity |].
  intros H.
  apply (H (ActionBase.mkObject SetSpeed (ActionBase.ctor "set_speed") tt)
           three_names); reflexivity.
Qed.

(** Scenario 1: [SetSpeed] registered under ["set_speed"], resolved with the
    empty fragment. *)
Lemma getName_is_construction_name_witness :
  exists p' obj,
    ActionFactory.ActionRegister SetSpeed ActionFactory.start
    = ActionFactory.Return true p'
    /\ ActionFactory.getAction "set_speed" (Jobject []) p'
       = ActionFactory.Return (Some obj) p'
    /\ ActionBase.Object_getName obj = "set_speed".
Proof.
  destruct (@getName_is_construction_name unit) as (_ & _ & _ & _ & H).
  apply (H SetSpeed (Jobject []) ActionFactory.start tt); reflexivity.
Defined.

(** Scenario 4. *)
Lemma Fan_ctor_mandatory_fields_witness :
  exists fan,
    Fan.ctor tt fan0 = inr fan
    /\ Fan.getZone fan = "zone1"
    /\ Fan.getSensors fan = ["fan0_tach"]
    /\ Fan.getInterface fan = "xyz.Target"
    /\ Fan.getProfiles fan = [].
Proof.
  destruct (Fan_ctor_mandatory_fields tt) as (_ & H & _ & _).
  apply (H fan0 "fan0" "zone1" ["fan0_tach"] "xyz.Target" []);
    try reflexivity.
  left. split; reflexivity.
Defined.

Lemma isActive_iff_empty_or_intersects_witness :
  Fan.isActive (Fan.mk (Fan.mkConfigBase "fan0") tt ["P1"; "P2"] "zone1"
                  ["fan0_tach"] "xyz.Target") ["P3"; "P2"] = true
  <-> In "P1" ["P3"; "P2"] \/ In "P2" ["P3"; "P2"].
Proof.
  destruct (isActive_iff_empty_or_intersects
              (Fan.mk (Fan.mkConfigBase "fan0") tt ["P1"; "P2"] "zone1"
                 ["fan0_tach"] "xyz.Target") ["P3"; "P2"])
    as (_ & _ & _ & H).
  apply H. reflexivity.
Defined.

(** Scenarios 2 and 3 in sequence: after an unknown name was resolved and
    ["set_speed"] was registered again, ["set_speed"] still resolves to
    [SetSpeed]. *)
Lemma registry_only_grows_witness :
  exists p',
    ActionFactory.run
      [ActionFactory.OpGetAction "unknown_action" (Jobject []);
       ActionFactory.OpRegAction CountState "set_speed";
       ActionFactory.OpRegAction CountState "count_state"] one_action
    = Some p'
    /\ StdMap.find "set_speed" (ActionFactory.actions p')
       = Some (ActionFactory.createAction SetSpeed).
Proof.
  destruct (@registry_only_grows unit) as (_ & _ & H).
  apply H. reflexivity.
Defined.

End Instances.

(** * Further properties of the factory *)

(** ** Registration followed by resolution *)

Section RegisterThenResolve.

Context {Action : Type}.

Local Abbreviation Class := (ActionBase.Class Action).
Local Abbreviation Object := (ActionBase.Object Action).
Local Abbreviation Process := (ActionFactory.Process Action).
Local Abbreviation Creator := (@ActionFactory.Creator Action).

Implicit Types (T : Class) (p : Process) (name : string) (jsonObj : json).

Lemma regAction_returned T name p (b : bool) p' :
  ActionFactory.regAction T name p = ActionFactory.Return b p' ->
  b = true
  /\ StdMap.find name (ActionFactory.actions p) = None
  /\ p' = ActionFactory.mkProcess
            (StdMap.add name (ActionFactory.createAction T)
               (ActionFactory.actions p))
            (ActionFactory.journal p).
Proof.
  destruct (StdMap.find name (ActionFactory.actions p)) as [c |] eqn:Hf.
  - rewrite (regAction_present T name p c Hf). discriminate.
  - rewrite (regAction_absent T name p Hf). intros H. inversion H.
    now repeat split.
Qed.

(** X1.  [regAction] returns exactly when the name was not registered, and
    what it returns is then [true]: it never returns [false], and it has no
    undefined case. *)
Theorem regAction_returns_exactly_when_absent T name p :
  ((exists p',
       ActionFactory.regAction T name p = ActionFactory.Return true p')
   <-> StdMap.mem name (ActionFactory.actions p) = false)
  /\ (forall (b : bool) p',
        ActionFactory.regAction T name p = ActionFactory.Return b p' ->
        b = true)
  /\ ActionFactory.regAction T name p <> ActionFactory.Undefined.
Proof.
  split; [split |]; [| | split].
  - intros [p' H]. apply regAction_returned in H as (_ & Hf & _).
    now apply mem_false_find.
  - intros Hm. apply mem_false_find in Hm. eexists.
    apply (regAction_absent T name p Hm).
  - intros b p' H. now apply regAction_returned in H.
  - destruct (StdMap.find name (ActionFactory.actions p)) as [c |] eqn:Hf.
    + rewrite (regAction_present T name p c Hf). discriminate.
    + rewrite (regAction_absent T name p Hf). discriminate.
Qed.

(** X2.  A name resolves to the class it was registered for: once
    [regAction<T>(name)] has returned, [getAction(name, jsonObj)] is one run
    of [T]'s constructor on [jsonObj].  If the constructor completes, the
    call returns a non-null pointer to an object of dynamic type [T], built
    under the name and with the members the constructor produced; if it
    throws, the call throws the same exception; the process is left as it
    was in both cases. *)
Theorem regAction_then_getAction T name jsonObj p p' :
  ActionFactory.regAction T name p = ActionFactory.Return true p' ->
  (forall s (m : ActionBase.Members T),
      ActionBase.construct T jsonObj = inr (s, m) ->
      ActionFactory.getAction name jsonObj p'
      = ActionFactory.Return
          (Some (ActionBase.mkObject T (ActionBase.ctor s) m)) p')
  /\ (forall e,
      ActionBase.construct T jsonObj = inl e ->
      ActionFactory.getAction name jsonObj p' = ActionFactory.Throw e p').
Proof.
  intros H. apply regAction_returned in H as (_ & _ & ->).
  assert (Hhit : ActionFactory.getAction name jsonObj
                   (ActionFactory.mkProcess
                      (StdMap.add name (ActionFactory.createAction T)
                         (ActionFactory.actions p))
                      (ActionFactory.journal p))
                 = ActionFactory.invoke
                     (ActionFactory.createAction T jsonObj)
                     (ActionFactory.mkProcess
                        (StdMap.add name (ActionFactory.createAction T)
                           (ActionFactory.actions p))
                        (ActionFactory.journal p))).
  { apply getAction_hit. simpl. now apply StdMapFacts.add_eq_o. }
  rewrite Hhit.
  unfold ActionFactory.invoke, ActionFactory.createAction,
    ActionFactory.make_unique.
  split.
  - intros s m Hc. now rewrite Hc.
  - intros e Hc. now rewrite Hc.
Qed.

(** X3.  An exception of the stored creator passes through [getAction] as
    it is: the call throws that exception, not the one for an unsupported
    name, writes no record to the journal and leaves the registry alone. *)
Theorem getAction_propagates_creator_exception name jsonObj p
    (c : Creator) (e : exception) :
  StdMap.find name (ActionFactory.actions p) = Some c ->
  c jsonObj = inl e ->
  ActionFactory.getAction name jsonObj p = ActionFactory.Throw e p.
Proof.
  intros Hf Hc. rewrite (getAction_hit name jsonObj p c Hf).
  unfold ActionFactory.invoke. now rewrite Hc.
Qed.

(** X4.  The first registration of a name wins: once [regAction<T>(name)]
    has returned, a later [regAction<T'>(name)] throws, for any class [T'],
    and [name] goes on resolving through [createAction<T>]. *)
Theorem first_registration_wins T T' name p p' :
  ActionFactory.regAction T name p = ActionFactory.Return true p' ->
  exists p'',
    ActionFactory.regAction T' name p'
    = ActionFactory.Throw (runtime_error "Actions with the same name found")
        p''
    /\ forall jsonObj,
        ActionFactory.getAction name jsonObj p''
        = ActionFactory.invoke (ActionFactory.createAction T jsonObj) p''.
Proof.
  intros H. apply regAction_returned in H as (_ & _ & ->).
  eexists. split.
  - apply (regAction_present T' name _ (ActionFactory.createAction T)).
    simpl. now apply StdMapFacts.add_eq_o.
  - intros jsonObj. apply getAction_hit. simpl.
    now apply StdMapFacts.add_eq_o.
Qed.

End RegisterThenResolve.

(** ** Static initialisation of the registry *)

Section StaticInit.

Context {Action : Type}.

Local Abbreviation Class := (ActionBase.Class Action).
Local Abbreviation Process := (ActionFactory.Process Action).
Local Abbreviation Creator := (@ActionFactory.Creator Action).

Implicit Types (T : Class) (Ts : list Class) (p : Process).

(** Two maps with the same lookups iterate over the same entries. *)
Lemma elements_ext {V : Type} (m m' : StdMap.t V) :
  (forall k, StdMap.find k m = StdMap.find k m') ->
  StdMap.elements m = StdMap.elements m'.
Proof.
  intros H. generalize (StdMapOrd.elements_Equal_eqlistA H).
  generalize (StdMap.elements m) (StdMap.elements m').
  intros l l' Heq.
  induction Heq as [| [k v] [k' v'] l l' [Hk Hv] _ IH]; [reflexivity |].
  simpl in Hk, Hv. subst. reflexivity.
Qed.

Lemma static_init_cons T Ts p :
  ActionFactory.static_init (T :: Ts) p
  = match ActionFactory.regAction T (ActionBase.name T) p with
    | ActionFactory.Return _ p' => ActionFactory.static_init Ts p'
    | ActionFactory.Throw e p' => ActionFactory.Throw e p'
    | ActionFactory.Undefined => ActionFactory.Undefined
    end.
Proof. reflexivity. Qed.

Lemma static_init_distinct Ts :
  forall p,
    NoDup (map ActionBase.name Ts) ->
    (forall T, In T Ts ->
       StdMap.find (ActionBase.name T) (ActionFactory.actions p) = None) ->
    exists p',
      ActionFactory.static_init Ts p = ActionFactory.Return tt p'
      /\ ActionFactory.journal p' = ActionFactory.journal p
      /\ (forall T, In T Ts ->
            StdMap.find (ActionBase.name T) (ActionFactory.actions p')
            = Some (ActionFactory.createAction T))
      /\ (forall n, ~ In n (map ActionBase.name Ts) ->
            StdMap.find n (ActionFactory.actions p')
            = StdMap.find n (ActionFactory.actions p))
      /\ StdMap.cardinal (ActionFactory.actions p')
         = length Ts + StdMap.cardinal (ActionFactory.actions p).
Proof.
  induction Ts as [| T Ts IH]; intros p Hnd Hfresh.
  - exists p. simpl. repeat split; tauto.
  - simpl in Hnd. apply NoDup_cons_iff in Hnd as [Hnotin Hnd].
    assert (Hf : StdMap.find (ActionBase.name T) (ActionFactory.actions p)
                 = None) by (apply Hfresh; now left).
    rewrite static_init_cons, (regAction_absent T _ p Hf).
    destruct (IH (ActionFactory.mkProcess
                    (StdMap.add (ActionBase.name T)
                       (ActionFactory.createAction T)
                       (ActionFactory.actions p))
                    (ActionFactory.journal p)) Hnd)
      as (p' & Hrun & Hj & Hin & Hout & Hcard).
    { intros T' HT'. simpl. rewrite StdMapFacts.add_neq_o.
      - apply Hfresh. now right.
      - intros Heq. apply Hnotin. rewrite Heq. now apply in_map. }
    exists p'. split; [exact Hrun |]. split; [exact Hj |].
    simpl in Hout, Hcard. split; [| split].
    + intros T' [<- | HT'].
      * rewrite (Hout _ Hnotin). now apply StdMapFacts.add_eq_o.
      * now apply Hin.
    + intros n Hn. simpl in Hn. rewrite Hout by tauto.
      apply StdMapFacts.add_neq_o. tauto.
    + rewrite Hcard, (cardinal_add_absent _ _ _ Hf). simpl. lia.
Qed.

Lemma static_init_clash Ts :
  forall p,
    (exists T, In T Ts
       /\ StdMap.find (ActionBase.name T) (ActionFactory.actions p) <> None)
    \/ ~ NoDup (map ActionBase.name Ts) ->
    exists p',
      ActionFactory.static_init Ts p
      = ActionFactory.Throw (runtime_error "Actions with the same name found")
          p'.
Proof.
  induction Ts as [| T Ts IH]; intros p H.
  - destruct H as [(T & [] & _) | H]. exfalso. apply H. constructor.
  - rewrite static_init_cons.
    destruct (StdMap.find (ActionBase.name T) (ActionFactory.actions p))
      as [c |] eqn:Hf.
    + rewrite (regAction_present T _ p c Hf). now eexists.
    + rewrite (regAction_absent T _ p Hf). apply IH. simpl.
      destruct H as [(T' & [<- | HT'] & Hpresent) | Hdup].
      * congruence.
      * left. exists T'. split; [exact HT' |].
        destruct (string_dec (ActionBase.name T) (ActionBase.name T'))
          as [Heq | Hne].
        -- rewrite <- Heq, StdMapFacts.add_eq_o by reflexivity. discriminate.
        -- now rewrite StdMapFacts.add_neq_o.
      * simpl in Hdup.
        destruct (in_dec string_dec (ActionBase.name T)
                    (map ActionBase.name Ts)) as [Hin | Hnotin].
        -- left. apply in_map_iff in Hin as (T' & Heq & HT').
           exists T'. split; [exact HT' |].
           rewrite Heq, StdMapFacts.add_eq_o by reflexivity. discriminate.
        -- right. intros Hnd. apply Hdup. now constructor.
Qed.

(** X5.  Static initialisation gets through exactly when the declared names
    of the classes are pairwise distinct; otherwise one of the initialisers
    throws the collision error, and [main()] is not reached. *)
Theorem static_init_returns_iff_distinct_names Ts :
  ((exists p,
       ActionFactory.static_init Ts ActionFactory.start
       = ActionFactory.Return tt p)
   <-> NoDup (map ActionBase.name Ts))
  /\ (~ NoDup (map ActionBase.name Ts) ->
      exists p,
        ActionFactory.static_init Ts ActionFactory.start
        = ActionFactory.Throw
            (runtime_error "Actions with the same name found") p).
Proof.
  assert (Hclash : ~ NoDup (map ActionBase.name Ts) ->
            exists p,
              ActionFactory.static_init Ts ActionFactory.start
              = ActionFactory.Throw
                  (runtime_error "Actions with the same name found") p).
  { intros Hdup. apply static_init_clash. now right. }
  split; [split |]; [| | exact Hclash].
  - intros [p Hret].
    destruct (ListDec.NoDup_dec string_dec (map ActionBase.name Ts))
      as [Hnd | Hdup]; [exact Hnd |].
    destruct (Hclash Hdup) as [p' Hthrow]. congruence.
  - intros Hnd.
    destruct (static_init_distinct Ts ActionFactory.start Hnd)
      as (p & Hrun & _); [| now exists p].
    intros T _. apply StdMapFacts.empty_o.
Qed.

(** X6.  When the declared names are pairwise distinct, static
    initialisation registers every class under its declared name and
    nothing else: each declared name maps to its class's [createAction<T>],
    the registered names are exactly the declared names, there are as many
    entries as classes, and the journal is empty. *)
Theorem static_init_registers_every_class Ts :
  NoDup (map ActionBase.name Ts) ->
  exists p,
    ActionFactory.static_init Ts ActionFactory.start
    = ActionFactory.Return tt p
    /\ (forall T, In T Ts ->
          StdMap.find (ActionBase.name T) (ActionFactory.actions p)
          = Some (ActionFactory.createAction T))
    /\ (forall n, StdMap.In n (ActionFactory.actions p)
                  <-> In n (map ActionBase.name Ts))
    /\ StdMap.cardinal (ActionFactory.actions p) = length Ts
    /\ ActionFactory.journal p = [].
Proof.
  intros Hnd.
  destruct (static_init_distinct Ts ActionFactory.start Hnd)
    as (p & Hrun & Hj & Hin & Hout & Hcard).
  { intros T _. apply StdMapFacts.empty_o. }
  exists p. split; [exact Hrun |]. split; [exact Hin |].
  split; [| split].
  - intros n. rewrite StdMapFacts.in_find_iff. split.
    + intros Hfound.
      destruct (in_dec string_dec n (map ActionBase.name Ts))
        as [Hyes | Hno]; [exact Hyes |].
      exfalso. apply Hfound. rewrite (Hout n Hno).
      apply StdMapFacts.empty_o.
    + intros Hn. apply in_map_iff in Hn as (T & <- & HT).
      rewrite (Hin T HT). discriminate.
  - rewrite Hcard. simpl. rewrite StdMapProps.cardinal_1; [lia |].
    apply StdMap.empty_1.
  - exact Hj.
Qed.

(** X7.  The order of static initialisation does not matter: for classes
    with pairwise distinct declared names, any two orders give registries
    with the same entries in the same iteration order, hence the same
    resolutions and the same list of available actions. *)
Theorem static_init_order_irrelevant Ts Ts' :
  Permutation Ts Ts' ->
  NoDup (map ActionBase.name Ts) ->
  exists p p',
    ActionFactory.static_init Ts ActionFactory.start
    = ActionFactory.Return tt p
    /\ ActionFactory.static_init Ts' ActionFactory.start
       = ActionFactory.Return tt p'
    /\ StdMap.elements (ActionFactory.actions p)
       = StdMap.elements (ActionFactory.actions p')
    /\ (forall n, StdMap.find n (ActionFactory.actions p)
                  = StdMap.find n (ActionFactory.actions p'))
    /\ ActionFactory.journal p = ActionFactory.journal p'.
Proof.
  intros Hperm Hnd.
  assert (Hnd' : NoDup (map ActionBase.name Ts')).
  { eapply Permutation_NoDup; [| exact Hnd]. now apply Permutation_map. }
  destruct (static_init_distinct Ts ActionFactory.start Hnd)
    as (p & Hrun & Hj & Hin & Hout & _).
  { intros T _. apply StdMapFacts.empty_o. }
  destruct (static_init_distinct Ts' ActionFactory.start Hnd')
    as (p' & Hrun' & Hj' & Hin' & Hout' & _).
  { intros T _. apply StdMapFacts.empty_o. }
  assert (Hfind : forall n, StdMap.find n (ActionFactory.actions p)
                            = StdMap.find n (ActionFactory.actions p')).
  { intros n.
    destruct (in_dec string_dec n (map ActionBase.name Ts)) as [Hyes | Hno].
    - apply in_map_iff in Hyes as (T & <- & HT).
      rewrite (Hin T HT). symmetry. apply Hin'.
      now apply (Permutation_in _ Hperm).
    - rewrite (Hout n Hno). symmetry. apply Hout'.
      intros Hn'. apply Hno.
      apply (Permutation_in _ (Permutation_sym
                                 (Permutation_map ActionBase.name Hperm))).
      exact Hn'. }
  exists p, p'. split; [exact Hrun |]. split; [exact Hrun' |].
  split; [now apply elements_ext |]. split; [exact Hfind |].
  now rewrite Hj, Hj'.
Qed.

End StaticInit.

(** ** What the registry holds, and what resolution returns *)

Section Reachable.

Context {Action : Type}.

Local Abbreviation Class := (ActionBase.Class Action).
Local Abbreviation Object := (ActionBase.Object Action).
Local Abbreviation Process := (ActionFactory.Process Action).
Local Abbreviation Creator := (@ActionFactory.Creator Action).

Implicit Types (T : Class) (p : Process) (name : string) (jsonObj : json).

Lemma perform_keeps_only_createAction (op : ActionFactory.Op) p :
  ActionFactory.only_createAction (ActionFactory.actions p) ->
  match ActionFactory.perform op p with
  | ActionFactory.Return _ p' | ActionFactory.Throw _ p' =>
      ActionFactory.only_createAction (ActionFactory.actions p')
  | ActionFactory.Undefined => True
  end.
Proof.
  intros Hinv.
  destruct op as [T name | name jsonObj]; simpl; unfold ActionFactory.bind.
  - destruct (StdMap.find name (ActionFactory.actions p)) as [c |] eqn:Hf.
    + now rewrite (regAction_present T name p c Hf).
    + rewrite (regAction_absent T name p Hf). simpl.
      intros n c. destruct (string_dec name n) as [<- | Hne].
      * rewrite StdMapFacts.add_eq_o by reflexivity.
        intros H. inversion H. now exists T.
      * rewrite StdMapFacts.add_neq_o by exact Hne. apply Hinv.
  - generalize (getAction_keeps_registry name jsonObj p).
    destruct (ActionFactory.getAction name jsonObj p) as [o p' | e p' |];
      simpl; try tauto; now intros ->.
Qed.

Lemma run_keeps_only_createAction (ops : list ActionFactory.Op) :
  forall p p',
    ActionFactory.only_createAction (ActionFactory.actions p) ->
    ActionFactory.run ops p = Some p' ->
    ActionFactory.only_createAction (ActionFactory.actions p').
Proof.
  induction ops as [| op ops IH]; intros p p' Hinv; simpl.
  - intros H. inversion H. now subst.
  - generalize (perform_keeps_only_createAction op p Hinv).
    destruct (ActionFactory.perform op p) as [u q | e q |];
      intros Hq Hrun; [now apply (IH q) | now apply (IH q) | discriminate].
Qed.

(** X8.  In a process that started with the empty registry and has only
    gone through operations of the factory, the registry holds nothing but
    [createAction<T>] creators, and a [getAction] that returns hands back a
    pointer that is not null, the process being as before. *)
Theorem getAction_never_returns_null (ops : list ActionFactory.Op) p name
    jsonObj (o : unique_ptr Object) p' :
  ActionFactory.run ops ActionFactory.start = Some p ->
  ActionFactory.getAction name jsonObj p = ActionFactory.Return o p' ->
  ActionFactory.only_createAction (ActionFactory.actions p)
  /\ o <> nullptr
  /\ p' = p.
Proof.
  intros Hrun Hret.
  assert (Hinv : ActionFactory.only_createAction (ActionFactory.actions p)).
  { apply (run_keeps_only_createAction ops ActionFactory.start p);
      [| exact Hrun].
    intros n c. simpl. rewrite StdMapFacts.empty_o. discriminate. }
  split; [exact Hinv |].
  destruct (StdMap.find name (ActionFactory.actions p)) as [c |] eqn:Hf.
  - destruct (Hinv name c Hf) as [T ->].
    rewrite (getAction_hit name jsonObj p _ Hf) in Hret.
    apply createAction_returns in Hret as [-> (n & m & _ & ->)].
    split; [discriminate | reflexivity].
  - destruct (StdMap.elements (ActionFactory.actions p)) as [| e l] eqn:He.
    + rewrite (getAction_miss_empty name jsonObj p He) in Hret. discriminate.
    + rewrite (getAction_miss name jsonObj p Hf) in Hret; [discriminate |].
      rewrite He. discriminate.
Qed.

End Reachable.

(** ** The report for an unknown name *)

Lemma nul_free_c_str (s : string) : Str.nul_free s = true -> Str.c_str s = s.
Proof.
  induction s as [| c s IH]; simpl; [reflexivity |].
  destruct (Ascii.eqb c Ascii.zero); simpl; [discriminate |].
  intros H. now rewrite IH.
Qed.

Lemma nul_free_append (a b : string) :
  Str.nul_free (a ++ b) = Str.nul_free a && Str.nul_free b.
Proof.
  induction a as [| c a IH]; simpl; [reflexivity |].
  now rewrite IH, andb_assoc.
Qed.

Lemma nul_free_concat (sep : string) (l : list string) :
  Str.nul_free sep = true ->
  (forall n, In n l -> Str.nul_free n = true) ->
  Str.nul_free (String.concat sep l) = true.
Proof.
  intros Hsep. induction l as [| x l IH]; intros Hall; [reflexivity |].
  simpl. destruct l as [| y l].
  - apply Hall. now left.
  - rewrite !nul_free_append, Hsep, (Hall x) by now left.
    simpl. apply IH. intros n Hn. apply Hall. now right.
Qed.

Lemma concat_occurs (sep n : string) (l : list string) :
  In n l -> Str.occurs n (String.concat sep l).
Proof.
  induction l as [| x l IH]; intros Hin; [destruct Hin |].
  simpl. destruct Hin as [-> | Hin].
  - destruct l as [| y l].
    + exists "", "". simpl. now rewrite append_nil_r.
    + now exists "", (sep ++ String.concat sep (y :: l)).
  - destruct l as [| y l]; [destruct Hin |].
    destruct (IH Hin) as (pre & post & Heq). rewrite Heq.
    exists (x ++ sep ++ pre), post. now rewrite !append_assoc.
Qed.

Section UnknownReport.

Context {Action : Type}.

Local Abbreviation Process := (ActionFactory.Process Action).

Implicit Types (p : Process) (name : string) (jsonObj : json).

(** X9.  When a name that is not registered is resolved on a registry that
    is not empty, every registered name occurs in the list of available
    actions that is built; and when neither the name asked for nor any
    registered name holds a NUL byte, the journal receives the message and
    that list in full, nothing being cut off by the passage through
    [c_str()]. *)
Theorem getAction_unknown_report_names_all name jsonObj p :
  StdMap.find name (ActionFactory.actions p) = None ->
  StdMap.elements (ActionFactory.actions p) <> [] ->
  exists acts,
    ActionFactory.available_actions (ActionFactory.actions p) p
    = ActionFactory.Return acts p
    /\ (forall n, StdMap.In n (ActionFactory.actions p) -> Str.occurs n acts)
    /\ (Str.nul_free name = true ->
        (forall n, StdMap.In n (ActionFactory.actions p) ->
           Str.nul_free n = true) ->
        ActionFactory.getAction name jsonObj p
        = ActionFactory.Throw (runtime_error "Unsupported action name given")
            (ActionFactory.mkProcess (ActionFactory.actions p)
               (ActionFactory.journal p
                ++ [mkLog ERR ("Action '" ++ name ++ "' is not registered")
                      ["AVAILABLE_ACTIONS=" ++ acts]]))).
Proof.
  intros Hf He.
  exists (String.concat ", " (keys (ActionFactory.actions p))).
  split; [now apply available_actions_nonempty |]. split.
  - intros n Hn. apply concat_occurs. now apply keys_In.
  - intros Hname Hall. rewrite (getAction_miss name jsonObj p Hf He).
    unfold unknown_record. rewrite !nul_free_c_str; [reflexivity | |].
    + apply nul_free_concat; [reflexivity |].
      intros n Hn. apply Hall. now apply keys_In.
    + rewrite !nul_free_append, Hname. reflexivity.
Qed.

(** X10.  With exactly one action registered, the list of available
    actions logged for an unknown name is the name of that action alone,
    without a separator: the range that [std::accumulate] folds is empty
    and the result is its initial value. *)
Theorem getAction_unknown_single_action name jsonObj p (k : string) :
  StdMap.cardinal (ActionFactory.actions p) = 1 ->
  StdMap.mem k (ActionFactory.actions p) = true ->
  name <> k ->
  ActionFactory.getAction name jsonObj p
  = ActionFactory.Throw (runtime_error "Unsupported action name given")
      (ActionFactory.mkProcess (ActionFactory.actions p)
         (ActionFactory.journal p ++ [unknown_record name k])).
Proof.
  intros Hcard Hk Hne.
  assert (Hkeys : keys (ActionFactory.actions p) = [k]).
  { apply StdMapFacts.mem_in_iff, keys_In in Hk. revert Hk.
    rewrite StdMap.cardinal_1 in Hcard. unfold keys.
    destruct (StdMap.elements (ActionFactory.actions p))
      as [| [k' c] [| e l]]; simpl in *; try discriminate.
    now intros [-> | []]. }
  assert (Hf : StdMap.find name (ActionFactory.actions p) = None).
  { apply StdMapFacts.not_find_in_iff. rewrite <- keys_In, Hkeys.
    simpl. intros [Heq | []]. now apply Hne. }
  rewrite (getAction_miss name jsonObj p Hf).
  - now rewrite Hkeys.
  - intros He. unfold keys in Hkeys. rewrite He in Hkeys. discriminate.
Qed.

(** X11.  The journal is only appended to, and only on failure.  An
    operation of the factory that returns writes nothing; over any series of
    operations the journal keeps what it had and gains at most one record
    per operation, each of level [ERR]. *)
Theorem journal_append_only :
  (forall (op : ActionFactory.Op) p (u : unit) p',
      ActionFactory.perform op p = ActionFactory.Return u p' ->
      ActionFactory.journal p' = ActionFactory.journal p)
  /\ (forall (ops : list ActionFactory.Op) p p',
      ActionFactory.run ops p = Some p' ->
      exists suffix,
        ActionFactory.journal p' = (ActionFactory.journal p ++ suffix)%list
        /\ Forall (fun r => log_level r = ERR) suffix
        /\ length suffix <= length ops).
Proof.
  assert (Hstep : forall (op : ActionFactory.Op) p,
             match ActionFactory.perform op p with
             | ActionFactory.Return _ p' =>
                 ActionFactory.journal p' = ActionFactory.journal p
             | ActionFactory.Throw _ p' =>
                 exists suffix,
                   ActionFactory.journal p'
                   = (ActionFactory.journal p ++ suffix)%list
                   /\ Forall (fun r => log_level r = ERR) suffix
                   /\ length suffix <= 1
             | ActionFactory.Undefined => True
             end).
  { intros [T name | name jsonObj] p; simpl; unfold ActionFactory.bind.
    - destruct (StdMap.find name (ActionFactory.actions p)) as [c |] eqn:Hf.
      + rewrite (regAction_present T name p c Hf).
        exists [collision_record name]. simpl. repeat constructor.
      + now rewrite (regAction_absent T name p Hf).
    - destruct (StdMap.find name (ActionFactory.actions p)) as [c |] eqn:Hf.
      + rewrite (getAction_hit name jsonObj p c Hf).
        unfold ActionFactory.invoke. destruct (c jsonObj); simpl.
        * exists []. rewrite app_nil_r. repeat constructor.
        * reflexivity.
      + destruct (StdMap.elements (ActionFactory.actions p))
          as [| e l] eqn:He.
        * now rewrite (getAction_miss_empty name jsonObj p He).
        * rewrite (getAction_miss name jsonObj p Hf)
            by (rewrite He; discriminate).
          eexists [_]. simpl. repeat constructor. }
  split.
  - intros op p u p' H. generalize (Hstep op p). now rewrite H.
  - induction ops as [| op ops IH]; intros p p'; simpl.
    + intros H. inversion H. subst. exists []. rewrite app_nil_r.
      repeat constructor.
    + generalize (Hstep op p).
      destruct (ActionFactory.perform op p) as [u q | e q |];
        intros Hq Hrun; [| | discriminate].
      * destruct (IH q p' Hrun) as (suffix & Hj & Hall & Hlen).
        exists suffix. rewrite Hj, Hq. repeat split; [exact Hall | lia].
      * destruct (IH q p' Hrun) as (suffix & Hj & Hall & Hlen).
        destruct Hq as (s1 & Hj1 & Hall1 & Hlen1).
        exists (s1 ++ suffix)%list. rewrite Hj, Hj1, app_assoc.
        split; [reflexivity |]. split; [now apply Forall_app |].
        rewrite length_app. lia.
Qed.

End UnknownReport.

(** ** The further properties at work on concrete processes *)

Section MoreInstances.

Import Examples.

Lemma regAction_returns_exactly_when_absent_witness :
  exists p',
    ActionFactory.regAction SetSpeed "set_speed" ActionFactory.start
    = ActionFactory.Return true p'.
Proof.
  destruct (regAction_returns_exactly_when_absent
              SetSpeed "set_speed" ActionFactory.start) as ([_ H] & _ & _).
  apply H. reflexivity.
Defined.

Lemma regAction_then_getAction_witness :
  ActionFactory.getAction "count_state" (Jobject [])
    (after [ActionFactory.OpRegAction SetSpeed "set_speed";
            ActionFactory.OpRegAction CountState "count_state"])
  = ActionFactory.Return
      (Some (ActionBase.mkObject CountState (ActionBase.ctor "count_state")
               0))
      (after [ActionFactory.OpRegAction SetSpeed "set_speed";
              ActionFactory.OpRegAction CountState "count_state"]).
Proof.
  destruct (regAction_then_getAction CountState "count_state" (Jobject [])
              one_action
              (after [ActionFactory.OpRegAction SetSpeed "set_speed";
                      ActionFactory.OpRegAction CountState "count_state"]))
    as [H _]; [reflexivity |].
  apply (H "count_state" 0). reflexivity.
Defined.

Lemma getAction_propagates_creator_exception_witness :
  ActionFactory.getAction "set_speed" (Jobject [])
    (after [ActionFactory.OpRegAction SetSpeedStrict "set_speed"])
  = ActionFactory.Throw (other_exception "missing field")
      (after [ActionFactory.OpRegAction SetSpeedStrict "set_speed"]).
Proof.
  apply (getAction_propagates_creator_exception "set_speed" (Jobject [])
           (after [ActionFactory.OpRegAction SetSpeedStrict "set_speed"])
           (ActionFactory.createAction SetSpeedStrict));
    reflexivity.
Defined.

Lemma first_registration_wins_witness :
  exists p'',
    ActionFactory.regAction SetSpeedStrict "set_speed" one_action
    = ActionFactory.Throw (runtime_error "Actions with the same name found")
        p''
    /\ forall jsonObj,
        ActionFactory.getAction "set_speed" jsonObj p''
        = ActionFactory.invoke
            (ActionFactory.createAction SetSpeed jsonObj) p''.
Proof.
  apply (first_registration_wins SetSpeed SetSpeedStrict "set_speed"
           ActionFactory.start one_action).
  reflexivity.
Defined.

(** Two classes that declare the same name. *)
Lemma static_init_returns_iff_distinct_names_witness :
  exists p,
    ActionFactory.static_init [SetSpeed; SetSpeedStrict] ActionFactory.start
    = ActionFactory.Throw (runtime_error "Actions with the same name found")
        p.
Proof.
  destruct (static_init_returns_iff_distinct_names
              [SetSpeed; SetSpeedStrict]) as [_ H].
  apply H. simpl. intros Hnd. apply NoDup_cons_iff in Hnd as [Hnotin _].
  apply Hnotin. now left.
Defined.

Lemma static_init_registers_every_class_witness :
  exists p,
    ActionFactory.static_init [SetSpeed; CountState] ActionFactory.start
    = ActionFactory.Return tt p
    /\ (forall T, In T [SetSpeed; CountState] ->
          StdMap.find (ActionBase.name T) (ActionFactory.actions p)
          = Some (ActionFactory.createAction T))
    /\ (forall n, StdMap.In n (ActionFactory.actions p)
                  <-> In n (map ActionBase.name [SetSpeed; CountState]))
    /\ StdMap.cardinal (ActionFactory.actions p) = 2
    /\ ActionFactory.journal p = [].
Proof.
  apply (static_init_registers_every_class [SetSpeed; CountState]).
  simpl. repeat constructor; simpl; intuition discriminate.
Defined.

Lemma static_init_order_irrelevant_witness :
  exists p p',
    ActionFactory.static_init [SetSpeed; CountState] ActionFactory.start
    = ActionFactory.Return tt p
    /\ ActionFactory.static_init [CountState; SetSpeed] ActionFactory.start
       = ActionFactory.Return tt p'
    /\ StdMap.elements (ActionFactory.actions p)
       = StdMap.elements (ActionFactory.actions p')
    /\ (forall n, StdMap.find n (ActionFactory.actions p)
                  = StdMap.find n (ActionFactory.actions p'))
    /\ ActionFactory.journal p = ActionFactory.journal p'.
Proof.
  apply (static_init_order_irrelevant [SetSpeed; CountState]
           [CountState; SetSpeed]).
  - apply perm_swap.
  - simpl. repeat constructor; simpl; intuition discriminate.
Defined.

Lemma getAction_never_returns_null_witness :
  ActionFactory.only_createAction (ActionFactory.actions one_action)
  /\ Some (ActionBase.mkObject SetSpeed (ActionBase.ctor "set_speed") tt)
     <> nullptr
  /\ one_action = one_action.
Proof.
  apply (getAction_never_returns_null
           [ActionFactory.OpRegAction SetSpeed "set_speed"] one_action
           "set_speed" (Jobject [])
           (Some (ActionBase.mkObject SetSpeed (ActionBase.ctor "set_speed")
                    tt))
           one_action); reflexivity.
Defined.

Lemma getAction_unknown_report_names_all_witness :
  exists acts,
    ActionFactory.available_actions (ActionFactory.actions initialised)
      initialised
    = ActionFactory.Return acts initialised
    /\ (forall n, StdMap.In n (ActionFactory.actions initialised) ->
          Str.occurs n acts)
    /\ (Str.nul_free "unknown_action" = true ->
        (forall n, StdMap.In n (ActionFactory.actions initialised) ->
           Str.nul_free n = true) ->
        ActionFactory.getAction "unknown_action" (Jobject []) initialised
        = ActionFactory.Throw (runtime_error "Unsupported action name given")
            (ActionFactory.mkProcess (ActionFactory.actions initialised)
               (ActionFactory.journal initialised
                ++ [mkLog ERR
                      ("Action '" ++ "unknown_action" ++ "' is not registered")
                      ["AVAILABLE_ACTIONS=" ++ acts]]))).
Proof.
  apply (getAction_unknown_report_names_all "unknown_action" (Jobject [])
           initialised).
  - reflexivity.
  - vm_compute. discriminate.
Defined.

(** Scenario 3: only ["set_speed"] registered, ["unknown_action"]
    resolved. *)
Lemma getAction_unknown_single_action_witness :
  ActionFactory.getAction "unknown_action" (Jobject []) one_action
  = ActionFactory.Throw (runtime_error "Unsupported action name given")
      (ActionFactory.mkProcess (ActionFactory.actions one_action)
         (ActionFactory.journal one_action
          ++ [unknown_record "unknown_action" "set_speed"])).
Proof.
  apply (getAction_unknown_single_action "unknown_action" (Jobject [])
           one_action "set_speed").
  - reflexivity.
  - reflexivity.
  - discriminate.
Defined.

Lemma journal_append_only_witness :
  exists suffix,
    ActionFactory.journal
      (after [ActionFactory.OpRegAction SetSpeed "set_speed";
              ActionFactory.OpGetAction "unknown_action" (Jobject []);
              ActionFactory.OpRegAction CountState "set_speed"])
    = (ActionFactory.journal (@ActionFactory.start unit) ++ suffix)%list
    /\ Forall (fun r => log_level r = ERR) suffix
    /\ length suffix <= 3.
Proof.
  destruct (@journal_append_only unit) as [_ H].
  apply (H [ActionFactory.OpRegAction SetSpeed "set_speed";
            ActionFactory.OpGetAction "unknown_action" (Jobject []);
            ActionFactory.OpRegAction CountState "set_speed"]
           ActionFactory.start).
  reflexivity.
Defined.

End MoreInstances.
